(** * Scoring core of the darts game (src/darts.js): Throw, Player, Game.

    The three classes of darts.js are embedded as three modules of the same
    names.  A method that mutates its receiver becomes a function from the
    receiver to the receiver's new state (paired with the returned value
    where the method's result matters). *)

From Stdlib Require Import ZArith String Ascii List Lia.
From stdpp Require Import base option list gmap strings.

Local Open Scope string_scope.
Local Open Scope list_scope.
Local Open Scope Z_scope.

(** ** JavaScript values that occur in the program *)

(** Numbers.  The program only ever produces integers and NaN: the constants
    0, 1, 2, 3, 25, 50, 501, the results of [parseInt], and sums, differences
    and products of those.  [Int z] stands for the double that is the integer
    [z] (doubles hold every integer up to 2^53 in magnitude exactly, and the
    arithmetic below is the double arithmetic as long as results stay in that
    range); -0, which [parseInt] yields for a suffix such as "-0", is
    identified with 0, to which it is [===]. *)
Inductive number : Type :=
  | NaN : number
  | Int : Z -> number.

Definition num_add (a b : number) : number :=
  match a, b with
  | Int x, Int y => Int (x + y)
  | _, _ => NaN
  end.

Definition num_sub (a b : number) : number :=
  match a, b with
  | Int x, Int y => Int (x - y)
  | _, _ => NaN
  end.

Definition num_mul (a b : number) : number :=
  match a, b with
  | Int x, Int y => Int (x * y)
  | _, _ => NaN
  end.

(** What is passed as a dart identifier or sits in a dart slot: a string
    ([@param {string} id]), [undefined] (a constructor argument left out, a
    property never written) or [null] (what [getAttribute("id")] gives for an
    element without the attribute).  A string is the sequence of its code
    units, each below 256. *)
Inductive ident : Type :=
  | Undefined : ident
  | Null : ident
  | Str : string -> ident.

(** What the remaining fields of a Throw hold: the placeholder "-", a number,
    or [undefined]. *)
Inductive value : Type :=
  | VUndefined : value
  | VString : string -> value
  | VNumber : number -> value.

#[global] Instance number_eq_dec : EqDecision number.
Proof. solve_decision. Defined.
#[global] Instance ident_eq_dec : EqDecision ident.
Proof. solve_decision. Defined.
#[global] Instance value_eq_dec : EqDecision value.
Proof. solve_decision. Defined.

(** [!id] *)
Definition falsy (id : ident) : bool :=
  match id with
  | Undefined | Null => true
  | Str s => String.eqb s EmptyString
  end.

(** [x == undefined] *)
Definition loosely_undefined (x : ident) : bool :=
  match x with
  | Undefined | Null => true
  | Str _ => false
  end.

(** [x !== undefined] *)
Definition strictly_defined (x : ident) : bool :=
  match x with
  | Undefined => false
  | Null | Str _ => true
  end.

(** ** parseInt(string) with no radix argument (ECMAScript, sec. parseInt) *)

(** StrWhiteSpaceChar among the code units below 256: TAB, LF, VT, FF, CR,
    SP and NBSP. *)
Definition isStrWhiteSpaceChar (c : ascii) : bool :=
  let n := Z.of_nat (nat_of_ascii c) in
  ((9 <=? n) && (n <=? 13)) || (n =? 32) || (n =? 160).

Fixpoint trimStart (s : string) : string :=
  match s with
  | String c s' => if isStrWhiteSpaceChar c then trimStart s' else s
  | EmptyString => EmptyString
  end.

(** Value of a code unit as a digit: 0-9, then a-z and A-Z for 10-35. *)
Definition digitValue (c : ascii) : option Z :=
  let n := Z.of_nat (nat_of_ascii c) in
  if (48 <=? n) && (n <=? 57) then Some (n - 48)
  else if (97 <=? n) && (n <=? 122) then Some (n - 87)
  else if (65 <=? n) && (n <=? 90) then Some (n - 55)
  else None.

(** The digits of the longest prefix of [s] made of radix-[R] digits. *)
Fixpoint digitPrefix (R : Z) (s : string) : list Z :=
  match s with
  | String c s' =>
      match digitValue c with
      | Some d => if d <? R then d :: digitPrefix R s' else []
      | None => []
      end
  | EmptyString => []
  end.

(** The integer that a sequence of digits denotes in radix [R]. *)
Definition mathInt (R : Z) (ds : list Z) : Z :=
  fold_left (fun a d => a * R + d) ds 0.

Definition parseInt (input : string) : number :=
  let trimmed := trimStart input in
  let sign := match trimmed with String "-" _ => -1 | _ => 1 end in
  let unsigned := match trimmed with
                  | String "+" r | String "-" r => r
                  | _ => trimmed
                  end in
  let '(radix, body) :=
    match unsigned with
    | String "0" (String "x" r) | String "0" (String "X" r) => (16, r)
    | _ => (10, unsigned)
    end in
  match digitPrefix radix body with
  | [] => NaN
  | ds => Int (sign * mathInt radix ds)
  end.

(** ** class Throw *)

Module Throw.

Record t : Type := mk {
  id : value;
  darts : gmap string ident;
  total : value;
  currentScore : value
}.

(** [constructor(id, d1, d2, d3, total, currentScore)] *)
Definition new (id : value) (d1 d2 d3 : ident) (total currentScore : value) : t :=
  mk id (<["three" := d3]> (<["two" := d2]> (<["one" := d1]> ∅))) total currentScore.

(** [this.darts.k]: a property that was never written reads [undefined]. *)
Definition dart (th : t) (k : string) : ident :=
  default Undefined (darts th !! k).

(** The multiplier chosen by [switch (id[0])]. *)
Definition modifier (c : ascii) : Z :=
  match c with
  | "s" => 1
  | "d" => 2
  | "t" => 3
  | _ => 1
  end%char.

(** [getDartValueFromID(id)]; the method reads no field of its receiver.
    The last case is never reached: [undefined], [null] and the empty
    string are the falsy identifiers. *)
Definition getDartValueFromID (id : ident) : number :=
  if falsy id then Int 0
  else match id with
       | Str (String c rest as s) =>
           if String.eqb s "Bull" then Int 50
           else if String.eqb s "Outer" then Int 25
           else num_mul (Int (modifier c)) (parseInt rest)
       | _ => Int 0
       end.

(** The number that [calculateTotal] assigns to [this.total]:
    [[one, two, three].map(...).reduce((a, b) => a + b, 0)]. *)
Definition slotSum (th : t) : number :=
  fold_left num_add
    (map getDartValueFromID [dart th "one"; dart th "two"; dart th "three"])
    (Int 0).

(** [calculateTotal()]; no return statement, so the call yields [undefined]. *)
Definition calculateTotal (th : t) : value * t :=
  (VUndefined,
   mk (id th) (darts th) (VNumber (slotSum th)) (currentScore th)).

(** [calculateCurrentScore(prevCurrentScore, id)] *)
Definition calculateCurrentScore (prevCurrentScore : number) (i : ident)
    (th : t) : number * t :=
  let score := num_sub prevCurrentScore (getDartValueFromID i) in
  (score, mk (id th) (darts th) (total th) (VNumber score)).

(** [isThrowComplete()] *)
Definition isThrowComplete (th : t) : bool :=
  strictly_defined (dart th "three").

(** The key that step [1] of [addDart] picks. *)
Definition nextSlot (th : t) : string :=
  let dart0 := EmptyString in
  let dart1 := if loosely_undefined (dart th "three") then "three" else dart0 in
  let dart2 := if loosely_undefined (dart th "two") then "two" else dart1 in
  if loosely_undefined (dart th "one") then "one" else dart2.

(** [addDart(id, currentScore)]; no return statement: the number that
    [calculateCurrentScore] returns is dropped and the call yields
    [undefined]. *)
Definition addDart (i : ident) (score : number) (th : t) : value * t :=
  let th1 := mk (id th) (<[nextSlot th := i]> (darts th)) (total th) (currentScore th) in
  let '(_, th2) := calculateTotal th1 in
  let '(_, th3) := calculateCurrentScore score i th2 in
  (VUndefined, th3).

End Throw.

(** ** class Player *)

Module Player.

Record t : Type := mk {
  id : Z;
  currentScore : number;
  throws : list Throw.t
}.

(** [new Throw(n)] with the other five arguments left out. *)
Definition emptyThrow (n : nat) : Throw.t :=
  Throw.new (VNumber (Int (Z.of_nat n)))
    Undefined Undefined Undefined VUndefined VUndefined.

(** The blank first row, [new Throw("-", "-", "-", "-", "-", 501)]. *)
Definition seedThrow (score : number) : Throw.t :=
  Throw.new (VString "-") (Str "-") (Str "-") (Str "-") (VString "-")
    (VNumber score).

(** [constructor(id)] *)
Definition new (id : Z) : t :=
  let currentScore := Int 501 in
  mk id currentScore [seedThrow currentScore].

(** [get currentThrow()]: [this.throws[this.throws.length - 1]], which is
    [undefined] (here [None]) on an empty array: index [0 - 1] is cut off
    to [0] on [nat], where the empty list has nothing either. *)
Definition currentThrow (p : t) : option Throw.t :=
  throws p !! (length (throws p) - 1)%nat.

(** The getter hands out the last Throw object itself; a method that
    mutates it changes the last element of [throws]. *)
Definition setCurrentThrow (th : Throw.t) (p : t) : t :=
  mk (id p) (currentScore p) (<[(length (throws p) - 1)%nat := th]> (throws p)).

(** Step [1] of [addDart]. *)
Definition startThrow (p : t) : t :=
  mk (id p) (currentScore p) (throws p ++ [emptyThrow (length (throws p))]).

(** [addDart(id)]; [None] is the TypeError of calling a method on an
    absent current Throw. *)
Definition addDart (i : ident) (p : t) : option t :=
  th ← currentThrow p;
  let p1 := if Throw.isThrowComplete th then startThrow p else p in
  th1 ← currentThrow p1;
  Some (setCurrentThrow (snd (Throw.addDart i (currentScore p1) th1)) p1).

End Player.

(** ** class Game *)

Module Game.

(** The keys of [this.player]. *)
Inductive key : Type := one | two.

(** [currentPlayer] refers to one of the two Player objects held in
    [this.player]; it is kept as the key of that object, so that a change
    made through it is a change of the Player stored under the key. *)
Record t : Type := mk {
  player_one : Player.t;
  player_two : Player.t;
  currentPlayer : key
}.

(** [this.player[k]] *)
Definition player (g : t) (k : key) : Player.t :=
  match k with
  | one => player_one g
  | two => player_two g
  end.

(** [constructor()] *)
Definition new : t := mk (Player.new 1) (Player.new 2) one.

(** The object [this.currentPlayer] refers to, and its update in place. *)
Definition current (g : t) : Player.t := player g (currentPlayer g).

Definition setCurrent (p : Player.t) (g : t) : t :=
  match currentPlayer g with
  | one => mk p (player_two g) one
  | two => mk (player_one g) p two
  end.

(** [switchPlayers()] *)
Definition switchPlayers (g : t) : t :=
  mk (player_one g) (player_two g)
     (if Player.id (current g) =? 1 then two else one).

(** [addDart(id)] *)
Definition addDart (i : ident) (g : t) : option t :=
  (* [1] *)
  p1 ← Player.addDart i (current g);
  (* [2] *)
  th ← Player.currentThrow p1;
  let '(score, th') :=
    Throw.calculateCurrentScore (Player.currentScore p1) i th in
  let p2 := Player.setCurrentThrow th' p1 in
  let p3 := Player.mk (Player.id p2) score (Player.throws p2) in
  let g3 := setCurrent p3 g in
  (* [3] *)
  th3 ← Player.currentThrow (current g3);
  Some (if Throw.isThrowComplete th3 then switchPlayers g3 else g3).

Definition other (k : key) : key :=
  match k with
  | one => two
  | two => one
  end.

#[global] Instance key_eq_dec : EqDecision key.
Proof. solve_decision. Defined.

End Game.

(** ** Runs *)

(** A Throw after a sequence of [addDart(id, score)] calls. *)
Fixpoint addDarts (calls : list (ident * number)) (th : Throw.t) : Throw.t :=
  match calls with
  | [] => th
  | (i, score) :: rest => addDarts rest (snd (Throw.addDart i score th))
  end.

(** A Game after a sequence of [Game.addDart] calls. *)
Fixpoint play (ids : list ident) (g : Game.t) : option Game.t :=
  match ids with
  | [] => Some g
  | i :: rest => g' ← Game.addDart i g; play rest g'
  end.

(** The states a Game goes through: the fresh Game and what [addDart], the
    one entry point of the click handler, makes of them. *)
Inductive reachable : Game.t -> Prop :=
  | reachable_new : reachable Game.new
  | reachable_addDart g i g' :
      reachable g -> Game.addDart i g = Some g' -> reachable g'.




(** ** The spec's mapping from identifiers to values, in the spec's words *)

Module Spec.








End Spec.

(** ** The variant of the spec's design note: one computation of the score *)

Module Single.

(** [Throw.addDart] made to return the score that its call of
    [calculateCurrentScore] computes. *)
Definition Throw_addDart (i : ident) (score : number) (th : Throw.t)
    : number * Throw.t :=
  let th1 := Throw.mk (Throw.id th) (<[Throw.nextSlot th := i]> (Throw.darts th))
               (Throw.total th) (Throw.currentScore th) in
  let '(_, th2) := Throw.calculateTotal th1 in
  Throw.calculateCurrentScore score i th2.

(** [Player.addDart] handing that score on. *)
Definition Player_addDart (i : ident) (p : Player.t) : option (number * Player.t) :=
  th ← Player.currentThrow p;
  let p1 := if Throw.isThrowComplete th then Player.startThrow p else p in
  th1 ← Player.currentThrow p1;
  let '(score, th2) := Throw_addDart i (Player.currentScore p1) th1 in
  Some (score, Player.setCurrentThrow th2 p1).

(** [Game.addDart] without its second [calculateCurrentScore]: step [2]
    stores the score that came back from the Throw. *)
Definition Game_addDart (i : ident) (g : Game.t) : option Game.t :=
  '(score, p1) ← Player_addDart i (Game.current g);
  let p3 := Player.mk (Player.id p1) score (Player.throws p1) in
  let g3 := Game.setCurrent p3 g in
  th3 ← Player.currentThrow (Game.current g3);
  Some (if Throw.isThrowComplete th3 then Game.switchPlayers g3 else g3).

End Single.

(** ** Auxiliary notions for the statements *)

(** How far a Throw is filled: slots one..j hold strings, the others are
    [undefined]. *)
Definition holdsString (x : ident) : Prop := exists s, x = Str s.

Definition filledUpTo (th : Throw.t) (j : nat) : Prop :=
  match j with
  | 0%nat => Throw.dart th "one" = Undefined /\ Throw.dart th "two" = Undefined /\
        Throw.dart th "three" = Undefined
  | 1%nat => holdsString (Throw.dart th "one") /\ Throw.dart th "two" = Undefined /\
        Throw.dart th "three" = Undefined
  | 2%nat => holdsString (Throw.dart th "one") /\ holdsString (Throw.dart th "two") /\
        Throw.dart th "three" = Undefined
  | _ => holdsString (Throw.dart th "one") /\ holdsString (Throw.dart th "two") /\
        holdsString (Throw.dart th "three")
  end.

(** A Throw filled by three trebles of 20, as in the end-to-end scenario. *)
Definition fullThrow : Throw.t :=
  addDarts [(Str "t20", Int 501); (Str "t20", Int 441); (Str "t20", Int 381)]
    (Player.emptyThrow 1).

(** A Throw whose total is the sum over its three slots. *)
Definition totalled (th : Throw.t) : Prop :=
  Throw.total th = VNumber (Throw.slotSum th).

(** What holds of the two Players of every Game that is reached: the throw
    sequence starts with the seed placeholder, every later Throw is
    totalled, and the ids are 1 and 2. *)
Definition player_ok (p : Player.t) : Prop :=
  exists rest : list Throw.t,
    Player.throws p = Player.seedThrow (Int 501) :: rest /\ Forall totalled rest.

Definition game_ok (g : Game.t) : Prop :=
  player_ok (Game.player_one g) /\ player_ok (Game.player_two g) /\
  Player.id (Game.player_one g) = 1 /\ Player.id (Game.player_two g) = 2.

(** The Throw a dart goes to, given the Player's last Throw [x] and the
    count [n] of the Player's throws, and the throws that stay before it. *)
Definition target (n : nat) (x : Throw.t) : Throw.t :=
  if Throw.isThrowComplete x then Player.emptyThrow n else x.

Definition before (l : list Throw.t) (x : Throw.t) : list Throw.t :=
  if Throw.isThrowComplete x then l ++ [x] else l.

(** The Games of the end-to-end scenario, after one, two and three "t20"
    on a fresh Game, and the Throw the first of these darts went to. *)
Definition afterFirstT20 : Game.t :=
  default Game.new (Game.addDart (Str "t20") Game.new).

Definition afterSecondT20 : Game.t :=
  default Game.new (Game.addDart (Str "t20") afterFirstT20).

Definition afterThirdT20 : Game.t :=
  default Game.new (Game.addDart (Str "t20") afterSecondT20).

Definition firstT20Throw : Throw.t :=
  snd (Throw.addDart (Str "t20") (Int 501) (Player.emptyThrow 1)).

(** ** Further notions: the click handler, and what later statements need *)



(** ** The controller: [$scope.game] and the click listeners *)

Module Controller.

(** The handler is attached to every section of the board at once and
    removed from every section at once; [listening] says whether it is
    attached. *)
Record t : Type := mk {
  game : Game.t;
  listening : bool
}.

(** [$scope.init()] followed by the [addEventListener] loop. *)
Definition init : t := mk Game.new true.

(** [x === 0] *)
Definition isZero (x : number) : bool :=
  match x with
  | Int 0 => true
  | _ => false
  end.

(** [$scope.boardClickHandler(event)], given what
    [event.target.getAttribute("id")] yields. *)
Definition boardClickHandler (id : ident) (sc : t) : option t :=
  (* [1] *)
  g ← Game.addDart id (game sc);
  (* [2] *)
  Some (mk g
          (if isZero (Player.currentScore (Game.player g Game.one))
              || isZero (Player.currentScore (Game.player g Game.two))
           then false
           else listening sc)).

(** A click on a section of the board: the handler runs if it is attached. *)
Definition click (id : ident) (sc : t) : option t :=
  if listening sc then boardClickHandler id sc else Some sc.

Fixpoint clicks (ids : list ident) (sc : t) : option t :=
  match ids with
  | [] => Some sc
  | i :: rest => sc' ← click i sc; clicks rest sc'
  end.

End Controller.

(** The condition under which the click handler removes itself. *)
Definition gameOver (g : Game.t) : bool :=
  Controller.isZero (Player.currentScore (Game.player g Game.one))
  || Controller.isZero (Player.currentScore (Game.player g Game.two)).

(** The state of a turn when all darts so far had string identifiers: the
    Player who is not current has a complete last Throw, and the current
    Player has thrown [j] darts of the turn. *)
Definition lastThrowComplete (p : Player.t) : Prop :=
  exists th, Player.currentThrow p = Some th /\ Throw.isThrowComplete th = true.

Definition lastThrowFilled (p : Player.t) (j : nat) : Prop :=
  exists th, Player.currentThrow p = Some th /\ filledUpTo th j.

Definition turn_state (g : Game.t) (j : nat) : Prop :=
  game_ok g /\
  lastThrowComplete (Game.player g (Game.other (Game.currentPlayer g))) /\
  match j with
  | 0%nat => lastThrowComplete (Game.current g)
  | _ => lastThrowFilled (Game.current g) j /\ (j < 3)%nat
  end.

(** Whose turn it is after [m] further darts when [k] has thrown [j] darts
    of the current turn. *)
Definition whoseTurn (k : Game.key) (j m : nat) : Game.key :=
  if Nat.even ((j + m) / 3) then k else Game.other k.

(** The state of the controller after a single click on a section with the
    identifier "s501", and a Throw with two darts recorded. *)
Definition afterS501 : Controller.t :=
  default Controller.init (Controller.clicks [Str "s501"] Controller.init).

Definition twoDartThrow : Throw.t :=
  addDarts [(Str "t20", Int 501); (Str "t20", Int 441)] (Player.emptyThrow 1).

(** * Properties *)

(** ** Throw.getDartValueFromID *)



Lemma getDartValueFromID_code c rest :
  String c rest ≠ "Bull" -> String c rest ≠ "Outer" ->
  Throw.getDartValueFromID (Str (String c rest))
  = num_mul (Int (Throw.modifier c)) (parseInt rest).
Proof.
  intros Hb Ho. unfold Throw.getDartValueFromID, falsy.
  destruct (String.eqb_spec (String c rest) EmptyString) as [E|_]; [discriminate E|].
  destruct (String.eqb_spec (String c rest) "Bull") as [E|_]; [contradiction|].
  destruct (String.eqb_spec (String c rest) "Outer") as [E|_]; [contradiction|].
  reflexivity.
Qed.





(** C2 as stated fails at "sx": it is non-empty, neither "Bull" nor "Outer",
    the parse of its suffix "x" fails, and the result is NaN, not 0. *)
Lemma getDartValueFromID_sx_not_zero :
  "sx" <> EmptyString /\ "sx" <> "Bull" /\ "sx" <> "Outer" /\
  parseInt "x" = NaN /\
  Throw.getDartValueFromID (Str "sx") = NaN /\
  Throw.getDartValueFromID (Str "sx") <> Int 0.
Proof.
  repeat split; try reflexivity; intros E; discriminate E.
Qed.

(** C2, amended.  For every non-empty identifier other than "Bull" and
    "Outer" whose suffix after the first character does not parse as a
    number, [getDartValueFromID] returns NaN. *)
Theorem getDartValueFromID_nonnumeric (c : ascii) (rest : string) :
  String c rest <> "Bull" -> String c rest <> "Outer" ->
  parseInt rest = NaN ->
  Throw.getDartValueFromID (Str (String c rest)) = NaN.
Proof.
  intros Hb Ho Hp. rewrite getDartValueFromID_code by assumption.
  rewrite Hp. reflexivity.
Qed.

Lemma getDartValueFromID_nonnumeric_witness :
  Throw.getDartValueFromID (Str "sx") = NaN.
Proof.
  apply (getDartValueFromID_nonnumeric "s" "x").
  - intros E; discriminate E.
  - intros E; discriminate E.
  - reflexivity.
Defined.

(** ** Throw: what [addDart] does to the slots, the total and the score *)

Lemma addDart_fields i score th :
  let th' := snd (Throw.addDart i score th) in
  Throw.id th' = Throw.id th /\
  Throw.darts th' = <[Throw.nextSlot th := i]> (Throw.darts th) /\
  Throw.total th' = VNumber (Throw.slotSum th') /\
  Throw.currentScore th' = VNumber (num_sub score (Throw.getDartValueFromID i)).
Proof. repeat split. Qed.

Lemma dart_addDart i score th k :
  Throw.dart (snd (Throw.addDart i score th)) k
  = if decide (Throw.nextSlot th = k) then i else Throw.dart th k.
Proof.
  unfold Throw.dart. cbn [Throw.addDart Throw.calculateTotal
    Throw.calculateCurrentScore snd Throw.darts].
  rewrite lookup_insert. destruct (decide (Throw.nextSlot th = k)); reflexivity.
Qed.

Lemma nextSlot_cases th :
  Throw.nextSlot th = "one" \/ Throw.nextSlot th = "two" \/
  Throw.nextSlot th = "three" \/ Throw.nextSlot th = EmptyString.
Proof.
  unfold Throw.nextSlot.
  destruct (loosely_undefined (Throw.dart th "one")); [tauto|].
  destruct (loosely_undefined (Throw.dart th "two")); [tauto|].
  destruct (loosely_undefined (Throw.dart th "three")); tauto.
Qed.

(** The second computation of the score, on the Throw that [addDart] left,
    returns the score stored there and changes nothing. *)
Lemma calculateCurrentScore_after_addDart i score th :
  let th' := snd (Throw.addDart i score th) in
  Throw.calculateCurrentScore score i th'
  = (num_sub score (Throw.getDartValueFromID i), th') /\
  Throw.currentScore th' = VNumber (num_sub score (Throw.getDartValueFromID i)).
Proof. split; reflexivity. Qed.

Lemma filledUpTo_emptyThrow n : filledUpTo (Player.emptyThrow n) 0.
Proof. repeat split. Qed.

Lemma filledUpTo_complete th j :
  filledUpTo th j -> Throw.isThrowComplete th = (3 <=? j)%nat.
Proof.
  unfold Throw.isThrowComplete.
  destruct j as [|[|[|j]]]; cbn; intros (H1 & H2 & H3);
    try (rewrite H3; reflexivity).
  destruct H3 as [s ->]. reflexivity.
Qed.

Lemma filledUpTo_addDart th j s score :
  filledUpTo th j ->
  filledUpTo (snd (Throw.addDart (Str s) score th)) (S j).
Proof.
  intros H.
  assert (Hn : Throw.nextSlot th
               = match j with
                 | 0%nat => "one" | 1%nat => "two" | 2%nat => "three" | _ => EmptyString
                 end).
  { unfold Throw.nextSlot.
    destruct j as [|[|[|j]]]; cbn in H; destruct H as (H1 & H2 & H3);
      repeat match goal with
             | H : holdsString _ |- _ => destruct H as [? ->]
             | H : _ = Undefined |- _ => rewrite H
             end; reflexivity. }
  destruct j as [|[|[|j]]]; cbn in H; destruct H as (H1 & H2 & H3);
    cbn [filledUpTo]; rewrite !dart_addDart, Hn; cbn;
    repeat split; try assumption; eexists; reflexivity.
Qed.

Lemma addDarts_complete calls th j :
  filledUpTo th j ->
  Throw.isThrowComplete
    (addDarts (map (fun c => (Str (fst c), snd c)) calls) th)
  = (3 <=? j + length calls)%nat.
Proof.
  revert th j. induction calls as [|[s score] calls IH]; intros th j H.
  - cbn [map addDarts length]. rewrite Nat.add_0_r. apply filledUpTo_complete, H.
  - cbn [map addDarts length fst snd].
    rewrite (IH _ (S j)) by (apply filledUpTo_addDart, H).
    f_equal. lia.
Qed.

(** C4 as stated fails at the seed placeholder: the current Throw of a fresh
    Game's current Player is complete although no dart has been recorded on
    it, so completeness is not "exactly three darts recorded". *)
Lemma seedThrow_complete_without_darts :
  Player.currentThrow (Game.current Game.new) = Some (Player.seedThrow (Int 501)) /\
  ~ (Throw.isThrowComplete (addDarts [] (Player.seedThrow (Int 501))) = true
     <-> length (@nil (ident * number)) = 3%nat).
Proof.
  split; [reflexivity|].
  intros [H _]. specialize (H eq_refl). discriminate H.
Qed.

(** C4, amended.  On a Throw created with empty slots, as [Player.addDart]
    creates them, after any sequence of [addDart] calls with string
    identifiers [isThrowComplete()] is true iff at least three darts have
    been recorded: false after none, one or two calls, true from the third
    call on.  The seed placeholder is complete from its construction. *)
Theorem isThrowComplete_after_addDarts (n : nat) (calls : list (string * number)) :
  Throw.isThrowComplete
    (addDarts (map (fun c => (Str (fst c), snd c)) calls) (Player.emptyThrow n))
  = (3 <=? length calls)%nat
  /\ Throw.isThrowComplete (Player.seedThrow (Int 501)) = true.
Proof.
  split; [|reflexivity].
  apply (addDarts_complete calls (Player.emptyThrow n) 0), filledUpTo_emptyThrow.
Qed.

(** C9 as stated fails in its last part: on the full Throw of three "t20",
    [addDart("s5", 321)] stores 316 as the Throw's currentScore but returns
    [undefined], not that score.  And the total is not unchanged on every
    full Throw: the seed placeholder has its three slots filled, and the
    call replaces its total "-" by the NaN that the slots sum to. *)
Lemma addDart_returns_undefined :
  loosely_undefined (Throw.dart fullThrow "one") = false /\
  loosely_undefined (Throw.dart fullThrow "two") = false /\
  loosely_undefined (Throw.dart fullThrow "three") = false /\
  Throw.isThrowComplete fullThrow = true /\
  Throw.currentScore (snd (Throw.addDart (Str "s5") (Int 321) fullThrow))
  = VNumber (Int 316) /\
  fst (Throw.addDart (Str "s5") (Int 321) fullThrow) = VUndefined /\
  fst (Throw.addDart (Str "s5") (Int 321) fullThrow)
  <> VNumber (num_sub (Int 321) (Throw.getDartValueFromID (Str "s5"))) /\
  Throw.isThrowComplete (Player.seedThrow (Int 501)) = true /\
  Throw.total (Player.seedThrow (Int 501)) = VString "-" /\
  Throw.total (snd (Throw.addDart (Str "s5") (Int 501) (Player.seedThrow (Int 501))))
  = VNumber NaN.
Proof.
  repeat apply conj; try (vm_compute; reflexivity).
  intros E. discriminate E.
Qed.

(** C9, amended.  On a Throw whose slots one, two and three are all filled
    (so that [isThrowComplete()] is true), [addDart(id, score)] stores the
    identifier under the empty-string key, leaves the three slots as they
    were, recomputes the total to the sum over those unchanged slots (the
    stored total stays the same if it was that sum), and sets currentScore
    to score minus the dart's value; the call itself returns [undefined]. *)
Theorem addDart_on_full_throw (th : Throw.t) (i : ident) (score : number) :
  loosely_undefined (Throw.dart th "one") = false ->
  loosely_undefined (Throw.dart th "two") = false ->
  loosely_undefined (Throw.dart th "three") = false ->
  Throw.isThrowComplete th = true /\
  fst (Throw.addDart i score th) = VUndefined /\
  Throw.darts (snd (Throw.addDart i score th)) = <[EmptyString := i]> (Throw.darts th) /\
  Throw.dart (snd (Throw.addDart i score th)) "one" = Throw.dart th "one" /\
  Throw.dart (snd (Throw.addDart i score th)) "two" = Throw.dart th "two" /\
  Throw.dart (snd (Throw.addDart i score th)) "three" = Throw.dart th "three" /\
  Throw.total (snd (Throw.addDart i score th)) = VNumber (Throw.slotSum th) /\
  (Throw.total th = VNumber (Throw.slotSum th) ->
   Throw.total (snd (Throw.addDart i score th)) = Throw.total th) /\
  Throw.currentScore (snd (Throw.addDart i score th))
  = VNumber (num_sub score (Throw.getDartValueFromID i)).
Proof.
  intros H1 H2 H3.
  assert (Hn : Throw.nextSlot th = EmptyString).
  { unfold Throw.nextSlot. rewrite H1, H2, H3. reflexivity. }
  assert (Hd : forall k, k <> EmptyString ->
             Throw.dart (snd (Throw.addDart i score th)) k = Throw.dart th k).
  { intros k Hk. rewrite dart_addDart, Hn.
    destruct (decide (EmptyString = k)) as [E|_]; [congruence|reflexivity]. }
  assert (Hs : Throw.slotSum (snd (Throw.addDart i score th)) = Throw.slotSum th).
  { unfold Throw.slotSum. rewrite !Hd by discriminate. reflexivity. }
  assert (Ht : Throw.total (snd (Throw.addDart i score th))
               = VNumber (Throw.slotSum th)).
  { rewrite <- Hs. reflexivity. }
  repeat split.
  - unfold Throw.isThrowComplete.
    destruct (Throw.dart th "three"); [discriminate H3|reflexivity..].
  - cbn [Throw.addDart Throw.calculateTotal Throw.calculateCurrentScore snd
         Throw.darts]. rewrite Hn. reflexivity.
  - apply Hd; discriminate.
  - apply Hd; discriminate.
  - apply Hd; discriminate.
  - exact Ht.
  - intros E. rewrite Ht, E. reflexivity.
Qed.

Lemma addDart_on_full_throw_witness :
  loosely_undefined (Throw.dart fullThrow "one") = false /\
  loosely_undefined (Throw.dart fullThrow "two") = false /\
  loosely_undefined (Throw.dart fullThrow "three") = false /\
  Throw.dart (snd (Throw.addDart (Str "s5") (Int 321) fullThrow)) "three"
  = Throw.dart fullThrow "three" /\
  Throw.total (snd (Throw.addDart (Str "s5") (Int 321) fullThrow))
  = VNumber (Int 180) /\
  Throw.currentScore (snd (Throw.addDart (Str "s5") (Int 321) fullThrow))
  = VNumber (Int 316).
Proof.
  do 3 (split; [reflexivity|]).
  destruct (addDart_on_full_throw fullThrow (Str "s5") (Int 321)
              eq_refl eq_refl eq_refl)
    as (_ & _ & _ & _ & _ & H3 & Ht & _ & Hc).
  split; [exact H3|]. split; [exact Ht|exact Hc].
Defined.

(** ** Player *)

Lemma currentThrow_snoc id score l x :
  Player.currentThrow (Player.mk id score (l ++ [x])) = Some x.
Proof.
  unfold Player.currentThrow. cbn [Player.throws].
  rewrite length_app. cbn [length].
  replace (length l + 1 - 1)%nat with (length l + 0)%nat by lia.
  rewrite lookup_app_r by lia.
  replace (length l + 0 - length l)%nat with 0%nat by lia. reflexivity.
Qed.

Lemma setCurrentThrow_snoc id score l x y :
  Player.setCurrentThrow y (Player.mk id score (l ++ [x]))
  = Player.mk id score (l ++ [y]).
Proof.
  unfold Player.setCurrentThrow. cbn [Player.throws Player.id Player.currentScore].
  f_equal. rewrite length_app. cbn [length].
  replace (length l + 1 - 1)%nat with (length l + 0)%nat by lia.
  rewrite insert_app_r. reflexivity.
Qed.

Lemma currentThrow_Some_snoc p th :
  Player.currentThrow p = Some th ->
  exists l : list Throw.t, Player.throws p = l ++ [th].
Proof.
  destruct p as [id score ths]. unfold Player.currentThrow. cbn [Player.throws].
  intros E. destruct (exists_last (l := ths)) as (l & x & ->).
  - intros ->. discriminate E.
  - exists l. f_equal.
    pose proof (currentThrow_snoc id score l x) as E'.
    unfold Player.currentThrow in E'. cbn [Player.throws] in E'.
    rewrite E' in E. injection E as ->. reflexivity.
Qed.

(** [Player.addDart] on a Player whose last Throw is [x]. *)
Lemma Player_addDart_snoc i id score l x :
  Player.addDart i (Player.mk id score (l ++ [x]))
  = Some (Player.mk id score
            (if Throw.isThrowComplete x
             then (l ++ [x])
                  ++ [snd (Throw.addDart i score
                             (Player.emptyThrow (length (l ++ [x]))))]
             else l ++ [snd (Throw.addDart i score x)])).
Proof.
  unfold Player.addDart. rewrite currentThrow_snoc. cbn [mbind option_bind].
  destruct (Throw.isThrowComplete x).
  - unfold Player.startThrow. cbn [Player.throws Player.id Player.currentScore].
    rewrite currentThrow_snoc. cbn [mbind option_bind].
    rewrite setCurrentThrow_snoc. reflexivity.
  - rewrite currentThrow_snoc. cbn [mbind option_bind].
    rewrite setCurrentThrow_snoc. reflexivity.
Qed.

(** C5.  For a Player with current (last) Throw [th] and any identifier,
    [Player.addDart] succeeds and keeps the Player's id and currentScore.  If
    [th] is complete, the throw sequence grows by exactly one Throw, whose
    index is the count of the throws there were, and that new Throw has
    received [addDart(id, currentScore)]; if [th] is incomplete, the length
    is unchanged and the last Throw is [th] after [addDart(id, currentScore)].
    In both cases the new current Throw is the one the dart went to. *)
Theorem Player_addDart_length (p : Player.t) (i : ident) (th : Throw.t) :
  Player.currentThrow p = Some th ->
  exists p',
    Player.addDart i p = Some p' /\
    Player.id p' = Player.id p /\
    Player.currentScore p' = Player.currentScore p /\
    if Throw.isThrowComplete th
    then
      let fresh := Player.emptyThrow (length (Player.throws p)) in
      length (Player.throws p') = S (length (Player.throws p)) /\
      Throw.id fresh = VNumber (Int (Z.of_nat (length (Player.throws p)))) /\
      Player.throws p'
      = Player.throws p ++ [snd (Throw.addDart i (Player.currentScore p) fresh)] /\
      Player.currentThrow p'
      = Some (snd (Throw.addDart i (Player.currentScore p) fresh))
    else
      length (Player.throws p') = length (Player.throws p) /\
      Player.throws p'
      = <[(length (Player.throws p) - 1)%nat :=
            snd (Throw.addDart i (Player.currentScore p) th)]> (Player.throws p) /\
      Player.currentThrow p'
      = Some (snd (Throw.addDart i (Player.currentScore p) th)).
Proof.
  intros Hc. destruct (currentThrow_Some_snoc p th Hc) as [l Hl].
  destruct p as [id score ths]. cbn [Player.throws] in Hl. subst ths.
  rewrite Player_addDart_snoc. eexists. split; [reflexivity|].
  cbn [Player.id Player.currentScore Player.throws].
  split; [reflexivity|]. split; [reflexivity|].
  destruct (Throw.isThrowComplete th).
  - cbn zeta. rewrite !length_app. cbn [length].
    repeat split; [lia|]. apply currentThrow_snoc.
  - rewrite !length_app. cbn [length].
    repeat split.
    + replace (length l + 1 - 1)%nat with (length l + 0)%nat by lia.
      rewrite insert_app_r. reflexivity.
    + apply currentThrow_snoc.
Qed.

Lemma Player_addDart_length_witness :
  Player.currentThrow (Player.new 1) = Some (Player.seedThrow (Int 501)) /\
  exists p', Player.addDart (Str "t20") (Player.new 1) = Some p' /\
             length (Player.throws p') = 2%nat.
Proof.
  split; [reflexivity|].
  destruct (Player_addDart_length (Player.new 1) (Str "t20")
              (Player.seedThrow (Int 501)) eq_refl)
    as (p' & Ha & _ & _ & Hl).
  exists p'. split; [exact Ha|]. exact (proj1 Hl).
Defined.

(** ** Game *)

Lemma current_setCurrent p g : Game.current (Game.setCurrent p g) = p.
Proof. unfold Game.current, Game.setCurrent. destruct (Game.currentPlayer g); reflexivity. Qed.

Lemma currentPlayer_setCurrent p g :
  Game.currentPlayer (Game.setCurrent p g) = Game.currentPlayer g.
Proof. unfold Game.setCurrent. destruct (Game.currentPlayer g) eqn:E; reflexivity. Qed.

Lemma player_setCurrent p g k :
  Game.player (Game.setCurrent p g) k
  = if decide (Game.currentPlayer g = k) then p else Game.player g k.
Proof.
  unfold Game.setCurrent.
  destruct (Game.currentPlayer g), k; reflexivity.
Qed.

Lemma player_switchPlayers g k :
  Game.player (Game.switchPlayers g) k = Game.player g k.
Proof. destruct k; reflexivity. Qed.

(** [Game.addDart] on a Game whose current Player's last Throw is [x]. *)
Lemma Game_addDart_snoc i g id score l x :
  Game.current g = Player.mk id score (l ++ [x]) ->
  let x' := snd (Throw.addDart i score (target (length (l ++ [x])) x)) in
  let g3 := Game.setCurrent
              (Player.mk id (num_sub score (Throw.getDartValueFromID i))
                 (before l x ++ [x'])) g in
  Game.addDart i g
  = Some (if Throw.isThrowComplete x' then Game.switchPlayers g3 else g3).
Proof.
  intros Hc. unfold Game.addDart, target, before.
  rewrite Hc, Player_addDart_snoc. cbn [mbind option_bind].
  destruct (Throw.isThrowComplete x);
    rewrite currentThrow_snoc; cbn [mbind option_bind];
    cbn [Throw.calculateCurrentScore Player.currentScore];
    rewrite setCurrentThrow_snoc; cbn [Player.id Player.throws];
    rewrite current_setCurrent, currentThrow_snoc; reflexivity.
Qed.

Lemma totalled_addDart i score th : totalled (snd (Throw.addDart i score th)).
Proof. reflexivity. Qed.

Lemma player_ok_snoc p :
  player_ok p ->
  exists (l : list Throw.t) (x : Throw.t),
    p = Player.mk (Player.id p) (Player.currentScore p) (l ++ [x]).
Proof.
  intros (rest & Hr & _). destruct p as [id score ths]. cbn in Hr |- *. subst ths.
  destruct (exists_last (l := Player.seedThrow (Int 501) :: rest)) as (l & x & E);
    [discriminate|].
  exists l, x. rewrite E. reflexivity.
Qed.

Lemma player_ok_thrown id score score' l x i s n :
  player_ok (Player.mk id score (l ++ [x])) ->
  player_ok (Player.mk id score'
               (before l x ++ [snd (Throw.addDart i s (target n x))])).
Proof.
  intros (rest & Hr & Hf). cbn [Player.throws] in Hr. unfold player_ok.
  cbn [Player.throws].
  destruct l as [|y l].
  - cbn in Hr. injection Hr as -> <-.
    exists [snd (Throw.addDart i s (Player.emptyThrow n))]. split; [reflexivity|].
    constructor; [apply totalled_addDart|constructor].
  - cbn in Hr. injection Hr as -> <-.
    apply Forall_app in Hf as [Hl Hx]. unfold before, target.
    destruct (Throw.isThrowComplete x).
    + eexists. split; [reflexivity|].
      apply Forall_app. split.
      * apply Forall_app. split; assumption.
      * constructor; [apply totalled_addDart|constructor].
    + eexists. split; [reflexivity|].
      apply Forall_app. split; [assumption|].
      constructor; [apply totalled_addDart|constructor].
Qed.

(** One [Game.addDart] from a Game that satisfies the invariant: it
    succeeds, keeps the invariant, takes the dart's value off the current
    Player's score and leaves the other Player as it was. *)
Lemma Game_addDart_ok i g :
  game_ok g ->
  exists g',
    Game.addDart i g = Some g' /\ game_ok g' /\
    Player.currentScore (Game.player g' (Game.currentPlayer g))
    = num_sub (Player.currentScore (Game.current g)) (Throw.getDartValueFromID i) /\
    Game.player g' (Game.other (Game.currentPlayer g))
    = Game.player g (Game.other (Game.currentPlayer g)).
Proof.
  intros (H1 & H2 & I1 & I2).
  assert (Hc : player_ok (Game.current g)).
  { unfold Game.current. destruct (Game.currentPlayer g); assumption. }
  destruct (player_ok_snoc _ Hc) as (l & x & E).
  rewrite (Game_addDart_snoc i g _ _ l x E). eexists. split; [reflexivity|].
  rewrite E in Hc.
  pose proof (player_ok_thrown _ _
                (num_sub (Player.currentScore (Game.current g))
                   (Throw.getDartValueFromID i))
                l x i (Player.currentScore (Game.current g))
                (length (l ++ [x])) Hc) as Hok.
  set (p3 := Player.mk _ _ (before l x ++ _)) in *.
  assert (Hid : Player.id p3 = Player.id (Game.current g)) by reflexivity.
  assert (G : game_ok (Game.setCurrent p3 g)).
  { unfold game_ok, Game.setCurrent, Game.current in *.
    destruct (Game.currentPlayer g); cbn; repeat split; try assumption;
      rewrite Hid; assumption. }
  split; [|split].
  - destruct (Throw.isThrowComplete _); [|exact G].
    destruct G as (G1 & G2 & G3 & G4). repeat split; assumption.
  - assert (Hp : Game.player (Game.setCurrent p3 g) (Game.currentPlayer g) = p3).
    { rewrite player_setCurrent. destruct (decide _); [reflexivity|congruence]. }
    destruct (Throw.isThrowComplete _);
      [rewrite player_switchPlayers|]; rewrite Hp; reflexivity.
  - assert (Hp : Game.player (Game.setCurrent p3 g) (Game.other (Game.currentPlayer g))
                 = Game.player g (Game.other (Game.currentPlayer g))).
    { rewrite player_setCurrent.
      destruct (decide _) as [Ek|]; [|reflexivity].
      destruct (Game.currentPlayer g); discriminate Ek. }
    destruct (Throw.isThrowComplete _);
      [rewrite player_switchPlayers|]; exact Hp.
Qed.

Lemma game_ok_new : game_ok Game.new.
Proof.
  repeat split; exists []; (split; [reflexivity|constructor]).
Qed.

Lemma reachable_ok g : reachable g -> game_ok g.
Proof.
  induction 1 as [|g i g' _ IH Hs]; [exact game_ok_new|].
  destruct (Game_addDart_ok i g IH) as (g'' & E & Hok & _).
  rewrite E in Hs. injection Hs as <-. exact Hok.
Qed.


(** C3 as stated fails at the seed placeholder: in a fresh Game the first
    Throw of Player one has the string "-" as its total, while the sum of
    [getDartValueFromID] over its slots, each "-", is NaN. *)
Lemma seedThrow_total_not_sum :
  reachable Game.new /\
  Player.throws (Game.player Game.new Game.one) !! 0%nat
  = Some (Player.seedThrow (Int 501)) /\
  Throw.total (Player.seedThrow (Int 501)) = VString "-" /\
  Throw.slotSum (Player.seedThrow (Int 501)) = NaN /\
  Throw.total (Player.seedThrow (Int 501))
  <> VNumber (Throw.slotSum (Player.seedThrow (Int 501))).
Proof.
  split; [exact reachable_new|].
  repeat split; try reflexivity. intros E. discriminate E.
Qed.

(** C3, amended.  In every state reached from a fresh Game by [Game.addDart]
    calls, every Throw of either Player other than the seed placeholder has
    as its total the sum of [getDartValueFromID] over its three dart slots,
    an unfilled slot counting 0; the first Throw of each Player is the seed
    placeholder, whose total is the string "-". *)
Theorem total_of_reachable_throws (g : Game.t) (k : Game.key) (n : nat) (th : Throw.t) :
  reachable g ->
  Player.throws (Game.player g k) !! n = Some th ->
  (n = 0%nat /\ th = Player.seedThrow (Int 501) /\ Throw.total th = VString "-") \/
  (n <> 0%nat /\
   Throw.total th
   = VNumber (num_add (num_add (num_add (Int 0)
                (Throw.getDartValueFromID (Throw.dart th "one")))
                (Throw.getDartValueFromID (Throw.dart th "two")))
                (Throw.getDartValueFromID (Throw.dart th "three")))).
Proof.
  intros Hr Hl. apply reachable_ok in Hr.
  assert (Hp : player_ok (Game.player g k)).
  { destruct Hr as (H1 & H2 & _). destruct k; assumption. }
  destruct Hp as (rest & E & Hf). rewrite E in Hl.
  destruct n as [|n].
  - left. injection Hl as <-. repeat split.
  - right. split; [discriminate|]. cbn in Hl.
    rewrite Forall_forall in Hf. apply (Hf th).
    apply list_elem_of_lookup. exists n. exact Hl.
Qed.

Lemma total_of_reachable_throws_witness :
  reachable afterFirstT20 /\
  Player.throws (Game.player afterFirstT20 Game.one) !! 1%nat = Some firstT20Throw /\
  Throw.total firstT20Throw = VNumber (Int 60).
Proof.
  assert (Hr : reachable afterFirstT20).
  { apply (reachable_addDart Game.new (Str "t20")); [exact reachable_new|].
    reflexivity. }
  assert (Hl : Player.throws (Game.player afterFirstT20 Game.one) !! 1%nat
               = Some firstT20Throw) by reflexivity.
  split; [exact Hr|]. split; [exact Hl|].
  destruct (total_of_reachable_throws afterFirstT20 Game.one 1 firstT20Throw Hr Hl)
    as [(E & _)|(_ & E)]; [discriminate E|exact E].
Defined.

(** C7.  On a fresh Game, three calls [Game.addDart("t20")] take Player 1's
    currentScore from 501 through 441 and 381 to 321, leave Player 1's
    current Throw with total 180, and end with Player 2 as currentPlayer. *)
Theorem three_treble_twenties :
  exists g1 g2 g3,
    Game.addDart (Str "t20") Game.new = Some g1 /\
    Game.addDart (Str "t20") g1 = Some g2 /\
    Game.addDart (Str "t20") g2 = Some g3 /\
    Player.id (Game.current Game.new) = 1 /\
    Player.currentScore (Game.player Game.new Game.one) = Int 501 /\
    Player.currentScore (Game.player g1 Game.one) = Int 441 /\
    Player.currentScore (Game.player g2 Game.one) = Int 381 /\
    Player.currentScore (Game.player g3 Game.one) = Int 321 /\
    Throw.total <$> Player.currentThrow (Game.player g3 Game.one)
    = Some (VNumber (Int 180)) /\
    Game.currentPlayer g1 = Game.one /\
    Game.currentPlayer g2 = Game.one /\
    Game.currentPlayer g3 = Game.two /\
    Player.id (Game.current g3) = 2.
Proof.
  exists afterFirstT20, afterSecondT20, afterThirdT20.
  repeat apply conj; vm_compute; reflexivity.
Qed.

(** ** Turns *)

(** One string dart on a Game whose current Player's dart goes to a Throw
    filled up to [j]: that Throw is then filled up to [j + 1], and the turn
    passes exactly if that makes three. *)
Lemma Game_addDart_string s g id score l x j :
  Game.current g = Player.mk id score (l ++ [x]) ->
  filledUpTo (target (length (l ++ [x])) x) j ->
  exists (x' : Throw.t) (score' : number),
    filledUpTo x' (S j) /\
    Game.addDart (Str s) g
    = Some (let g3 := Game.setCurrent
                        (Player.mk id score' (before l x ++ [x'])) g in
            if (3 <=? S j)%nat then Game.switchPlayers g3 else g3).
Proof.
  intros Hc Hf.
  exists (snd (Throw.addDart (Str s) score (target (length (l ++ [x])) x))),
         (num_sub score (Throw.getDartValueFromID (Str s))).
  pose proof (filledUpTo_addDart _ _ s score Hf) as Hf'.
  split; [exact Hf'|].
  rewrite (Game_addDart_snoc (Str s) g id score l x Hc).
  cbn zeta. rewrite (filledUpTo_complete _ _ Hf'). reflexivity.
Qed.

Lemma target_incomplete n x j :
  filledUpTo x j -> (j < 3)%nat -> target n x = x /\ forall l, before l x = l.
Proof.
  intros Hf Hj. unfold target, before.
  rewrite (filledUpTo_complete _ _ Hf).
  destruct (Nat.leb_spec 3 j); [lia|]. split; reflexivity.
Qed.

Lemma switchPlayers_other g :
  game_ok g -> Game.currentPlayer (Game.switchPlayers g) = Game.other (Game.currentPlayer g).
Proof.
  intros (_ & _ & I1 & I2). unfold Game.switchPlayers, Game.current.
  cbn [Game.currentPlayer]. destruct (Game.currentPlayer g); cbn [Game.player Game.other].
  - rewrite I1. reflexivity.
  - rewrite I2. reflexivity.
Qed.





(** ** The score *)

Lemma Single_Game_addDart_eq i g : Single.Game_addDart i g = Game.addDart i g.
Proof.
  destruct (Game.current g) as [id score ths] eqn:Hc.
  destruct ths as [|t0 ths0].
  - unfold Single.Game_addDart, Single.Player_addDart, Game.addDart, Player.addDart.
    rewrite Hc. reflexivity.
  - destruct (exists_last (l := t0 :: ths0)) as (l & x & E); [discriminate|].
    rewrite E in Hc. rewrite (Game_addDart_snoc i g id score l x Hc).
    unfold Single.Game_addDart, Single.Player_addDart, target, before.
    rewrite Hc, currentThrow_snoc. cbn [mbind option_bind].
    destruct (Throw.isThrowComplete x).
    + unfold Player.startThrow. cbn [Player.throws Player.id Player.currentScore].
      rewrite currentThrow_snoc. cbn [mbind option_bind].
      unfold Single.Throw_addDart.
      cbn [Throw.calculateTotal Throw.calculateCurrentScore].
      rewrite setCurrentThrow_snoc. cbn [mbind option_bind Player.id Player.throws].
      rewrite current_setCurrent, currentThrow_snoc. reflexivity.
    + rewrite currentThrow_snoc. cbn [mbind option_bind].
      unfold Single.Throw_addDart.
      cbn [Throw.calculateTotal Throw.calculateCurrentScore Player.currentScore].
      rewrite setCurrentThrow_snoc. cbn [mbind option_bind Player.id Player.throws].
      rewrite current_setCurrent, currentThrow_snoc. reflexivity.
Qed.

(** C8.  For every reachable Game state and every identifier: step [1] of
    [Game.addDart] succeeds and leaves a current Throw that stores a score;
    the [calculateCurrentScore] call of step [2] returns that very score and
    leaves the Throw as it was; after [Game.addDart] the currentScore of the
    Player who threw is the currentScore of that Player's current Throw; and
    the variant that reads the score computed inside [Throw.addDart] instead
    of recomputing it yields the same Game. *)
Theorem duplicate_score_computation (g : Game.t) (i : ident) :
  reachable g ->
  exists p1 th g',
    Player.addDart i (Game.current g) = Some p1 /\
    Player.currentThrow p1 = Some th /\
    Throw.currentScore th
    = VNumber (fst (Throw.calculateCurrentScore (Player.currentScore p1) i th)) /\
    snd (Throw.calculateCurrentScore (Player.currentScore p1) i th) = th /\
    Game.addDart i g = Some g' /\
    (exists th',
       Player.currentThrow (Game.player g' (Game.currentPlayer g)) = Some th' /\
       Throw.currentScore th'
       = VNumber (Player.currentScore (Game.player g' (Game.currentPlayer g)))) /\
    Single.Game_addDart i g = Some g'.
Proof.
  intros Hr. pose proof (reachable_ok g Hr) as (H1 & H2 & _).
  assert (Hc : player_ok (Game.current g)).
  { unfold Game.current. destruct (Game.currentPlayer g); assumption. }
  destruct (player_ok_snoc _ Hc) as (l & x & E).
  set (id := Player.id (Game.current g)) in *.
  set (score := Player.currentScore (Game.current g)) in *.
  set (x' := snd (Throw.addDart i score (target (length (l ++ [x])) x))).
  exists (Player.mk id score (before l x ++ [x'])), x'.
  eexists.
  split.
  { rewrite E, Player_addDart_snoc. unfold x', before, target.
    destruct (Throw.isThrowComplete x); reflexivity. }
  split; [apply currentThrow_snoc|].
  split; [reflexivity|]. split; [reflexivity|].
  split; [apply (Game_addDart_snoc i g id score l x E)|].
  split.
  - exists x'. cbn zeta. fold x'.
    set (p3 := Player.mk id _ (before l x ++ [x'])).
    assert (Hp : Game.player (Game.setCurrent p3 g) (Game.currentPlayer g) = p3).
    { rewrite player_setCurrent. destruct (decide _); [reflexivity|congruence]. }
    destruct (Throw.isThrowComplete x');
      [rewrite player_switchPlayers|]; rewrite Hp;
      (split; [apply currentThrow_snoc|reflexivity]).
  - rewrite Single_Game_addDart_eq. apply (Game_addDart_snoc i g id score l x E).
Qed.

Lemma duplicate_score_computation_witness :
  reachable Game.new /\
  Single.Game_addDart (Str "t20") Game.new = Game.addDart (Str "t20") Game.new.
Proof.
  split; [exact reachable_new|].
  destruct (duplicate_score_computation Game.new (Str "t20") reachable_new)
    as (p1 & th & g' & _ & _ & _ & _ & E & _ & E').
  rewrite E, E'. reflexivity.
Defined.







(** * Further properties of the code *)

(** ** Permissive parsing in [getDartValueFromID] *)











(** X4.  The value of an identifier is NaN exactly when the identifier is a
    non-empty string other than "Bull" and "Outer" whose text after the
    first character does not parse as a number; absent and empty
    identifiers, "Bull" and "Outer" never give NaN. *)
Theorem getDartValueFromID_NaN_iff (i : ident) :
  Throw.getDartValueFromID i = NaN <->
  exists c rest,
    i = Str (String c rest) /\
    String c rest <> "Bull" /\ String c rest <> "Outer" /\
    parseInt rest = NaN.
Proof.
  split.
  - destruct i as [| |[|c rest]]; try (intros E; discriminate E).
    intros E. exists c, rest. split; [reflexivity|].
    assert (Hb : String c rest <> "Bull").
    { intros Eb. rewrite Eb in E. discriminate E. }
    assert (Ho : String c rest <> "Outer").
    { intros Eo. rewrite Eo in E. discriminate E. }
    split; [exact Hb|]. split; [exact Ho|].
    rewrite getDartValueFromID_code in E by assumption.
    destruct (parseInt rest); [reflexivity|discriminate E].
  - intros (c & rest & -> & Hb & Ho & Hp).
    rewrite getDartValueFromID_code by assumption. rewrite Hp. reflexivity.
Qed.

(** ** Throw: the order of the slots, and darts that are replaced *)

(** X5.  Three darts with string identifiers on a Throw created with empty
    slots land in the slots one, two and three in that order; the total is
    then the sum of the three values, the currentScore is the score passed
    with the third dart minus that dart's value, and the Throw keeps the
    index it was created with. *)
Theorem addDart_fills_in_order
    (n : nat) (a b c : string) (s1 s2 s3 : number) :
  let th := addDarts [(Str a, s1); (Str b, s2); (Str c, s3)] (Player.emptyThrow n) in
  Throw.dart th "one" = Str a /\
  Throw.dart th "two" = Str b /\
  Throw.dart th "three" = Str c /\
  Throw.total th
  = VNumber (num_add (num_add (num_add (Int 0)
               (Throw.getDartValueFromID (Str a)))
               (Throw.getDartValueFromID (Str b)))
               (Throw.getDartValueFromID (Str c))) /\
  Throw.currentScore th = VNumber (num_sub s3 (Throw.getDartValueFromID (Str c))) /\
  Throw.id th = VNumber (Int (Z.of_nat n)).
Proof.
  cbn zeta.
  pose proof (filledUpTo_emptyThrow n) as F0.
  set (t0 := Player.emptyThrow n) in *.
  assert (N0 : Throw.nextSlot t0 = "one") by reflexivity.
  set (t1 := snd (Throw.addDart (Str a) s1 t0)).
  assert (D1 : forall k, Throw.dart t1 k
                         = if decide ("one" = k) then Str a else Throw.dart t0 k).
  { intros k. unfold t1. rewrite dart_addDart, N0. reflexivity. }
  assert (N1 : Throw.nextSlot t1 = "two").
  { unfold Throw.nextSlot. rewrite !D1. reflexivity. }
  set (t2 := snd (Throw.addDart (Str b) s2 t1)).
  assert (D2 : forall k, Throw.dart t2 k
                         = if decide ("two" = k) then Str b else Throw.dart t1 k).
  { intros k. unfold t2. rewrite dart_addDart, N1. reflexivity. }
  assert (N2 : Throw.nextSlot t2 = "three").
  { unfold Throw.nextSlot. rewrite !D2, !D1. reflexivity. }
  set (t3 := snd (Throw.addDart (Str c) s3 t2)).
  assert (D3 : forall k, Throw.dart t3 k
                         = if decide ("three" = k) then Str c else Throw.dart t2 k).
  { intros k. unfold t3. rewrite dart_addDart, N2. reflexivity. }
  change (addDarts [(Str a, s1); (Str b, s2); (Str c, s3)] t0) with t3.
  assert (E1 : Throw.dart t3 "one" = Str a) by (rewrite D3, D2, D1; reflexivity).
  assert (E2 : Throw.dart t3 "two" = Str b) by (rewrite D3, D2; reflexivity).
  assert (E3 : Throw.dart t3 "three" = Str c) by (rewrite D3; reflexivity).
  repeat apply conj; [exact E1|exact E2|exact E3| | reflexivity|reflexivity].
  change (Throw.total t3) with (VNumber (Throw.slotSum t3)).
  unfold Throw.slotSum. rewrite E1, E2, E3. reflexivity.
Qed.

Lemma nextSlot_after_addDart i score th :
  loosely_undefined i = true \/ Throw.nextSlot th = EmptyString ->
  Throw.nextSlot (snd (Throw.addDart i score th)) = Throw.nextSlot th.
Proof.
  intros H.
  assert (D : forall k, Throw.dart (snd (Throw.addDart i score th)) k
                        = if decide (Throw.nextSlot th = k) then i else Throw.dart th k)
    by (intros k; apply dart_addDart).
  unfold Throw.nextSlot at 1. rewrite !D. clear D.
  remember (Throw.nextSlot th) as k eqn:K. unfold Throw.nextSlot in K.
  destruct (loosely_undefined (Throw.dart th "one")) eqn:U1;
    [|destruct (loosely_undefined (Throw.dart th "two")) eqn:U2;
      [|destruct (loosely_undefined (Throw.dart th "three")) eqn:U3]];
    subst k;
    repeat case_decide; try congruence;
    rewrite ?U1, ?U2, ?U3; try reflexivity;
    (destruct H as [H|H]; [rewrite ?H; reflexivity|discriminate H]).
Qed.

(** X6.  A dart that did not take a slot is replaced by the next one: if the
    identifier of a dart is absent ([undefined] or [null]), or the Throw's
    three slots were already filled, then adding any further dart gives the
    very Throw that adding the further dart alone would have given. *)
Theorem addDart_replaces_unrecorded_dart
    (th : Throw.t) (i j : ident) (s1 s2 : number) :
  loosely_undefined i = true \/ Throw.nextSlot th = EmptyString ->
  snd (Throw.addDart j s2 (snd (Throw.addDart i s1 th)))
  = snd (Throw.addDart j s2 th).
Proof.
  intros H. pose proof (nextSlot_after_addDart i s1 th H) as N.
  assert (Ed : Throw.darts (snd (Throw.addDart j s2 (snd (Throw.addDart i s1 th))))
               = Throw.darts (snd (Throw.addDart j s2 th))).
  { change (<[Throw.nextSlot (snd (Throw.addDart i s1 th)) := j]>
              (<[Throw.nextSlot th := i]> (Throw.darts th))
            = <[Throw.nextSlot th := j]> (Throw.darts th)).
    rewrite N. apply insert_insert_eq. }
  destruct (snd (Throw.addDart j s2 (snd (Throw.addDart i s1 th)))) as [id1 d1 t1 c1] eqn:A.
  destruct (snd (Throw.addDart j s2 th)) as [id2 d2 t2 c2] eqn:B.
  cbn [Throw.darts] in Ed. subst d2.
  pose proof (f_equal Throw.id A) as I1. pose proof (f_equal Throw.id B) as I2.
  pose proof (f_equal Throw.total A) as T1. pose proof (f_equal Throw.total B) as T2.
  pose proof (f_equal Throw.currentScore A) as C1.
  pose proof (f_equal Throw.currentScore B) as C2.
  pose proof (f_equal Throw.darts A) as DA. pose proof (f_equal Throw.darts B) as DB.
  cbn [Throw.id Throw.total Throw.currentScore Throw.darts] in *.
  f_equal.
  - rewrite <- I1, <- I2. reflexivity.
  - rewrite <- T1, <- T2.
    change (VNumber (Throw.slotSum (snd (Throw.addDart j s2 (snd (Throw.addDart i s1 th)))))
            = VNumber (Throw.slotSum (snd (Throw.addDart j s2 th)))).
    unfold Throw.slotSum, Throw.dart. rewrite DA, DB. reflexivity.
  - rewrite <- C1, <- C2. reflexivity.
Qed.

Lemma addDart_replaces_unrecorded_dart_witness :
  loosely_undefined Null = true /\
  snd (Throw.addDart (Str "t20") (Int 501)
         (snd (Throw.addDart Null (Int 501) (Player.emptyThrow 1))))
  = snd (Throw.addDart (Str "t20") (Int 501) (Player.emptyThrow 1)).
Proof.
  split; [reflexivity|].
  apply (addDart_replaces_unrecorded_dart (Player.emptyThrow 1) Null (Str "t20")).
  left. reflexivity.
Defined.

(** ** Player and Game: failure, history, indices *)

(** What [Game.addDart] makes of the two Players, whenever it succeeds. *)
Lemma Game_addDart_players i g g' :
  Game.addDart i g = Some g' ->
  exists id score (l : list Throw.t) x,
    Game.current g = Player.mk id score (l ++ [x]) /\
    Game.player g' (Game.currentPlayer g)
    = Player.mk id (num_sub score (Throw.getDartValueFromID i))
        (before l x
           ++ [snd (Throw.addDart i score (target (length (l ++ [x])) x))]) /\
    Game.player g' (Game.other (Game.currentPlayer g))
    = Game.player g (Game.other (Game.currentPlayer g)) /\
    Game.currentPlayer g'
    = if Throw.isThrowComplete
           (snd (Throw.addDart i score (target (length (l ++ [x])) x)))
      then (if Player.id (Game.current g) =? 1 then Game.two else Game.one)
      else Game.currentPlayer g.
Proof.
  intros Hs.
  destruct (Game.current g) as [id score ths] eqn:Hc.
  destruct ths as [|t0 ths0].
  - unfold Game.addDart, Player.addDart in Hs. rewrite Hc in Hs. discriminate Hs.
  - destruct (exists_last (l := t0 :: ths0)) as (l & x & E); [discriminate|].
    rewrite E in Hc. rewrite E. exists id, score, l, x.
    split; [reflexivity|].
    pose proof (Game_addDart_snoc i g id score l x Hc) as Hq. cbv zeta in Hq.
    set (x' := snd (Throw.addDart i score (target (length (l ++ [x])) x))) in *.
    set (p3 := Player.mk id _ (before l x ++ [x'])) in *.
    rewrite Hs in Hq. apply (inj Some) in Hq. subst g'.
    assert (Hp : Game.player (Game.setCurrent p3 g) (Game.currentPlayer g) = p3).
    { rewrite player_setCurrent. destruct (decide _); [reflexivity|congruence]. }
    assert (Ho : Game.player (Game.setCurrent p3 g) (Game.other (Game.currentPlayer g))
                 = Game.player g (Game.other (Game.currentPlayer g))).
    { rewrite player_setCurrent. destruct (decide _) as [Ek|]; [|reflexivity].
      destruct (Game.currentPlayer g); discriminate Ek. }
    destruct (Throw.isThrowComplete x').
    + rewrite !player_switchPlayers. repeat apply conj; try assumption.
      unfold Game.switchPlayers. cbn [Game.currentPlayer].
      rewrite current_setCurrent. reflexivity.
    + repeat apply conj; try assumption. apply currentPlayer_setCurrent.
Qed.

(** X7.  [Player.addDart] and [Game.addDart] fail (with the TypeError of a
    method call on [undefined]) exactly when the Player, respectively the
    current Player, has an empty throw sequence. *)
Theorem addDart_fails_iff_no_throws (i : ident) :
  (forall p, Player.addDart i p = None <-> Player.throws p = []) /\
  (forall g, Game.addDart i g = None <-> Player.throws (Game.current g) = []).
Proof.
  split.
  - intros [id score ths]. cbn [Player.throws]. split.
    + destruct ths as [|t0 ths0]; [reflexivity|].
      destruct (exists_last (l := t0 :: ths0)) as (l & x & ->); [discriminate|].
      rewrite Player_addDart_snoc. intros E. discriminate E.
    + intros ->. reflexivity.
  - intros g. split.
    + destruct (Game.current g) as [id score ths] eqn:Hc. cbn [Player.throws].
      destruct ths as [|t0 ths0]; [reflexivity|].
      destruct (exists_last (l := t0 :: ths0)) as (l & x & E); [discriminate|].
      rewrite E in Hc. rewrite (Game_addDart_snoc i g id score l x Hc).
      intros E'. discriminate E'.
    + intros E. unfold Game.addDart, Player.addDart, Player.currentThrow.
      rewrite E. reflexivity.
Qed.

(** X8.  [Game.addDart] never alters a recorded Throw: a Throw of either
    Player that is complete, or is not that Player's last, or belongs to the
    Player who is not current, is found unchanged at the same place
    afterwards. *)
Theorem Game_addDart_keeps_history
    (g g' : Game.t) (i : ident) (k : Game.key) (n : nat) (th : Throw.t) :
  Game.addDart i g = Some g' ->
  Player.throws (Game.player g k) !! n = Some th ->
  Throw.isThrowComplete th = true
  \/ (S n < length (Player.throws (Game.player g k)))%nat
  \/ k <> Game.currentPlayer g ->
  Player.throws (Game.player g' k) !! n = Some th.
Proof.
  intros Hs Hl Hcase.
  destruct (Game_addDart_players i g g' Hs)
    as (id & score & l & x & Hc & Hp & Ho & _).
  destruct (decide (k = Game.currentPlayer g)) as [->|Hk].
  - fold (Game.current g) in Hl. rewrite Hp. rewrite Hc in Hl.
    cbn [Player.throws] in *.
    destruct (decide (n < length l)%nat) as [Hn|Hn].
    + rewrite lookup_app_l in Hl by exact Hn.
      rewrite lookup_app_l.
      * unfold before. destruct (Throw.isThrowComplete x); [|exact Hl].
        rewrite lookup_app_l by exact Hn. exact Hl.
      * unfold before. destruct (Throw.isThrowComplete x); [|exact Hn].
        rewrite length_app. lia.
    + assert (Hlen : (n < length (l ++ [x]))%nat)
        by (apply lookup_lt_Some in Hl; exact Hl).
      rewrite length_app in Hlen. cbn [length] in Hlen.
      assert (n = length l) by lia. subst n.
      assert (Ex : th = x).
      { rewrite lookup_app_r in Hl by lia.
        replace (length l - length l)%nat with 0%nat in Hl by lia.
        cbn in Hl. congruence. }
      subst th.
      assert (Hx : Throw.isThrowComplete x = true).
      { destruct Hcase as [H|[H|H]]; [exact H| |congruence].
        fold (Game.current g) in H. rewrite Hc in H. cbn [Player.throws] in H.
        rewrite length_app in H. cbn [length] in H. lia. }
      unfold before. rewrite Hx.
      rewrite lookup_app_l by (rewrite length_app; cbn [length]; lia).
      exact Hl.
  - assert (Ek : k = Game.other (Game.currentPlayer g)).
    { destruct (Game.currentPlayer g), k; cbn; congruence. }
    rewrite Ek in *. rewrite Ho. exact Hl.
Qed.

Lemma Game_addDart_keeps_history_witness :
  Game.addDart (Str "t20") Game.new = Some afterFirstT20 /\
  Player.throws (Game.player Game.new Game.one) !! 0%nat
  = Some (Player.seedThrow (Int 501)) /\
  Player.throws (Game.player afterFirstT20 Game.one) !! 0%nat
  = Some (Player.seedThrow (Int 501)).
Proof.
  assert (Hs : Game.addDart (Str "t20") Game.new = Some afterFirstT20) by reflexivity.
  split; [exact Hs|]. split; [reflexivity|].
  apply (Game_addDart_keeps_history Game.new afterFirstT20 (Str "t20") Game.one 0
           (Player.seedThrow (Int 501)) Hs eq_refl).
  left. reflexivity.
Defined.

Lemma other_of_not_current (k c : Game.key) : k <> c -> k = Game.other c.
Proof. destruct k, c; cbn; congruence. Qed.

Lemma lookup_snoc_last (l : list Throw.t) (x th : Throw.t) :
  (l ++ [x]) !! length l = Some th -> th = x.
Proof.
  rewrite lookup_app_r by lia.
  replace (length l - length l)%nat with 0%nat by lia.
  cbn. congruence.
Qed.

(** X9.  In every state reached from a fresh Game, every Throw of a Player
    except that Player's last is complete: a new Throw is only ever started
    after a complete one. *)
Theorem reachable_history_complete
    (g : Game.t) (k : Game.key) (n : nat) (th : Throw.t) :
  reachable g ->
  Player.throws (Game.player g k) !! n = Some th ->
  (S n < length (Player.throws (Game.player g k)))%nat ->
  Throw.isThrowComplete th = true.
Proof.
  intros Hr. revert k n th.
  induction Hr as [|g i g' _ IH Hs]; intros k n th Hl Hn.
  - destruct k; cbn in Hn; lia.
  - destruct (Game_addDart_players i g g' Hs)
      as (id & score & l & x & Hc & Hp & Ho & _).
    destruct (decide (k = Game.currentPlayer g)) as [->|Hk].
    + rewrite Hp in Hl, Hn. cbn [Player.throws] in Hl, Hn.
      rewrite length_app in Hn. cbn [length] in Hn.
      rewrite lookup_app_l in Hl by lia.
      specialize (IH (Game.currentPlayer g)). fold (Game.current g) in IH.
      rewrite Hc in IH. cbn [Player.throws] in IH.
      rewrite length_app in IH. cbn [length] in IH.
      unfold before in Hl, Hn. destruct (Throw.isThrowComplete x) eqn:Hx.
      * rewrite length_app in Hn. cbn [length] in Hn.
        destruct (decide (n = length l)) as [->|Hne].
        -- apply lookup_snoc_last in Hl. congruence.
        -- apply (IH n th Hl). lia.
      * apply (IH n th); [|lia]. rewrite lookup_app_l by lia. exact Hl.
    + apply other_of_not_current in Hk. subst k.
      rewrite Ho in Hl, Hn. exact (IH _ n th Hl Hn).
Qed.

Lemma reachable_history_complete_witness :
  reachable afterFirstT20 /\
  Throw.isThrowComplete (Player.seedThrow (Int 501)) = true.
Proof.
  assert (Hr : reachable afterFirstT20).
  { apply (reachable_addDart Game.new (Str "t20")); [exact reachable_new|].
    reflexivity. }
  split; [exact Hr|].
  apply (reachable_history_complete afterFirstT20 Game.one 0
           (Player.seedThrow (Int 501)) Hr eq_refl).
  vm_compute. lia.
Defined.

(** X10.  In every state reached from a fresh Game, the Throw at position
    [n >= 1] of a Player's throw sequence has the number [n] as its id: the
    indices count up from 1 without gaps, after the seed placeholder at
    position 0. *)
Theorem reachable_throw_ids
    (g : Game.t) (k : Game.key) (n : nat) (th : Throw.t) :
  reachable g ->
  Player.throws (Game.player g k) !! n = Some th ->
  n <> 0%nat ->
  Throw.id th = VNumber (Int (Z.of_nat n)).
Proof.
  intros Hr. revert k n th.
  induction Hr as [|g i g' _ IH Hs]; intros k n th Hl Hn.
  - destruct k, n as [|n]; try congruence; cbn in Hl; discriminate Hl.
  - destruct (Game_addDart_players i g g' Hs)
      as (id & score & l & x & Hc & Hp & Ho & _).
    destruct (decide (k = Game.currentPlayer g)) as [->|Hk].
    + rewrite Hp in Hl. cbn [Player.throws] in Hl.
      specialize (IH (Game.currentPlayer g)). fold (Game.current g) in IH.
      rewrite Hc in IH. cbn [Player.throws] in IH.
      pose proof (lookup_lt_Some _ _ _ Hl) as Hlt.
      rewrite length_app in Hlt. cbn [length] in Hlt.
      unfold before, target in Hl, Hlt.
      destruct (Throw.isThrowComplete x) eqn:Hx.
      * destruct (decide (n = length (l ++ [x]))) as [->|Hne].
        -- apply lookup_snoc_last in Hl. subst th. reflexivity.
        -- rewrite lookup_app_l in Hl by lia. exact (IH n th Hl Hn).
      * destruct (decide (n = length l)) as [->|Hne].
        -- apply lookup_snoc_last in Hl. subst th.
           change (Throw.id x = VNumber (Int (Z.of_nat (length l)))).
           apply IH; [|exact Hn].
           rewrite lookup_app_r by lia.
           replace (length l - length l)%nat with 0%nat by lia. reflexivity.
        -- rewrite lookup_app_l in Hl by lia.
           apply (IH n th); [|exact Hn]. rewrite lookup_app_l by lia. exact Hl.
    + apply other_of_not_current in Hk. subst k.
      rewrite Ho in Hl. exact (IH _ n th Hl Hn).
Qed.

Lemma reachable_throw_ids_witness :
  reachable afterFirstT20 /\
  Player.throws (Game.player afterFirstT20 Game.one) !! 1%nat = Some firstT20Throw /\
  Throw.id firstT20Throw = VNumber (Int 1).
Proof.
  assert (Hr : reachable afterFirstT20).
  { apply (reachable_addDart Game.new (Str "t20")); [exact reachable_new|].
    reflexivity. }
  split; [exact Hr|]. split; [reflexivity|].
  apply (reachable_throw_ids afterFirstT20 Game.one 1 firstT20Throw Hr eq_refl).
  discriminate.
Defined.

(** X11.  In every state reached from a fresh Game, each Player has a
    current Throw, and the currentScore stored on it is that Player's
    currentScore: the last row of a Player's table always shows the
    Player's score. *)
Theorem reachable_score_on_current_throw (g : Game.t) (k : Game.key) :
  reachable g ->
  exists th,
    Player.currentThrow (Game.player g k) = Some th /\
    Throw.currentScore th = VNumber (Player.currentScore (Game.player g k)).
Proof.
  intros Hr. revert k. induction Hr as [|g i g' _ IH Hs]; intros k.
  - destruct k; eexists; split; reflexivity.
  - destruct (Game_addDart_players i g g' Hs)
      as (id & score & l & x & Hc & Hp & Ho & _).
    destruct (decide (k = Game.currentPlayer g)) as [->|Hk].
    + rewrite Hp. eexists. split; [apply currentThrow_snoc|reflexivity].
    + apply other_of_not_current in Hk. subst k. rewrite Ho. apply IH.
Qed.

Lemma reachable_score_on_current_throw_witness :
  reachable afterFirstT20 /\
  exists th,
    Player.currentThrow (Game.player afterFirstT20 Game.one) = Some th /\
    Throw.currentScore th = VNumber (Int 441).
Proof.
  assert (Hr : reachable afterFirstT20).
  { apply (reachable_addDart Game.new (Str "t20")); [exact reachable_new|].
    reflexivity. }
  split; [exact Hr|].
  exact (reachable_score_on_current_throw afterFirstT20 Game.one Hr).
Defined.

(** X12.  In every state reached from a fresh Game, [switchPlayers] hands
    the turn to the other Player, changes neither Player, and applied twice
    gives the state back. *)
Theorem reachable_switchPlayers (g : Game.t) :
  reachable g ->
  Game.currentPlayer (Game.switchPlayers g) = Game.other (Game.currentPlayer g) /\
  (forall k, Game.player (Game.switchPlayers g) k = Game.player g k) /\
  Game.switchPlayers (Game.switchPlayers g) = g.
Proof.
  intros Hr. pose proof (reachable_ok g Hr) as Hok.
  split; [apply switchPlayers_other, Hok|].
  split; [intros k; apply player_switchPlayers|].
  destruct Hok as (_ & _ & I1 & I2).
  destruct g as [p1 p2 [|]]; cbn in I1, I2;
    unfold Game.switchPlayers, Game.current; cbn; rewrite ?I1, ?I2; cbn;
    rewrite ?I1, ?I2; reflexivity.
Qed.

Lemma reachable_switchPlayers_witness :
  reachable Game.new /\
  Game.currentPlayer (Game.switchPlayers Game.new) = Game.two.
Proof.
  split; [exact reachable_new|].
  exact (proj1 (reachable_switchPlayers Game.new reachable_new)).
Defined.

(** ** Turns of three darts *)

Lemma game_ok_switchPlayers g : game_ok (Game.switchPlayers g) -> game_ok g.
Proof. intros H. exact H. Qed.

Lemma turn_state_step s g j :
  turn_state g j ->
  exists g',
    Game.addDart (Str s) g = Some g' /\
    turn_state g' (if (j =? 2)%nat then 0%nat else S j) /\
    Game.currentPlayer g'
    = if (j =? 2)%nat then Game.other (Game.currentPlayer g)
      else Game.currentPlayer g.
Proof.
  intros (Hok & Hother & Hcur).
  destruct (Game_addDart_ok (Str s) g Hok) as (g' & Hs & Hok' & _ & Ho).
  exists g'. split; [exact Hs|].
  assert (Hstart : exists (l : list Throw.t) x,
             Game.current g
             = Player.mk (Player.id (Game.current g))
                 (Player.currentScore (Game.current g)) (l ++ [x]) /\
             filledUpTo (target (length (l ++ [x])) x) j /\
             (j < 3)%nat /\
             (j <> 0%nat -> before l x = l)).
  { destruct j as [|j].
    - destruct Hcur as (th & Hc & Hcomp).
      destruct (currentThrow_Some_snoc _ _ Hc) as [l Hl].
      exists l, th. split.
      { destruct (Game.current g) as [id score ths]. cbn in Hl |- *. congruence. }
      split; [|split; [lia|congruence]].
      unfold target. rewrite Hcomp. apply filledUpTo_emptyThrow.
    - destruct Hcur as ((th & Hc & Hf) & Hj).
      destruct (currentThrow_Some_snoc _ _ Hc) as [l Hl].
      exists l, th. split.
      { destruct (Game.current g) as [id score ths]. cbn in Hl |- *. congruence. }
      destruct (target_incomplete (length (l ++ [th])) th (S j) Hf Hj) as [Et Eb].
      split; [rewrite Et; exact Hf|]. split; [exact Hj|]. intros _. apply Eb. }
  destruct Hstart as (l & x & Hc & Hf & Hj & Hb).
  destruct (Game_addDart_string s g _ _ l x j Hc Hf) as (x' & score' & Hf' & Hs').
  cbv zeta in Hs'. rewrite Hs in Hs'. apply (inj Some) in Hs'.
  set (p3 := Player.mk _ score' (before l x ++ [x'])) in Hs'.
  assert (Hlast : Player.currentThrow p3 = Some x') by apply currentThrow_snoc.
  destruct j as [|[|[|j]]]; [| | |lia]; cbn [Nat.leb Nat.eqb] in Hs' |- *; subst g'.
  - split; [|apply currentPlayer_setCurrent].
    split; [exact Hok'|]. rewrite currentPlayer_setCurrent. split.
    + rewrite Ho. exact Hother.
    + rewrite current_setCurrent. split; [|lia]. exists x'. split; assumption.
  - split; [|apply currentPlayer_setCurrent].
    split; [exact Hok'|]. rewrite currentPlayer_setCurrent. split.
    + rewrite Ho. exact Hother.
    + rewrite current_setCurrent. split; [|lia]. exists x'. split; assumption.
  - assert (Hp : Game.currentPlayer (Game.switchPlayers (Game.setCurrent p3 g))
                 = Game.other (Game.currentPlayer g)).
    { rewrite switchPlayers_other by (apply game_ok_switchPlayers, Hok').
      rewrite currentPlayer_setCurrent. reflexivity. }
    split; [|exact Hp].
    split; [exact Hok'|]. unfold Game.current. rewrite Hp.
    assert (Eoo : Game.other (Game.other (Game.currentPlayer g)) = Game.currentPlayer g)
      by (destruct (Game.currentPlayer g); reflexivity).
    rewrite Eoo. split.
    + rewrite player_switchPlayers, player_setCurrent.
      destruct (decide _); [|congruence].
      exists x'. split; [exact Hlast|]. apply (filledUpTo_complete x' 3 Hf').
    + rewrite Ho. exact Hother.
Qed.

Lemma whoseTurn_step k j m :
  (j < 3)%nat ->
  whoseTurn (if (j =? 2)%nat then Game.other k else k)
            (if (j =? 2)%nat then 0%nat else S j) m
  = whoseTurn k j (S m)
  /\ (((if (j =? 2) then 0 else S j) + m) mod 3 = (j + S m) mod 3)%nat.
Proof.
  intros Hj. unfold whoseTurn.
  destruct j as [|[|[|j]]]; [| | |lia]; cbn [Nat.eqb].
  - replace (1 + m)%nat with (0 + S m)%nat by lia. split; reflexivity.
  - replace (2 + m)%nat with (1 + S m)%nat by lia. split; reflexivity.
  - replace (2 + S m)%nat with (m + 1 * 3)%nat by lia.
    rewrite Nat.div_add by lia. rewrite Nat.Div0.mod_add.
    cbn [Nat.add]. split; [|reflexivity].
    replace (m / 3 + 1)%nat with (S (m / 3)) by lia.
    rewrite Nat.even_succ, <- Nat.negb_even.
    destruct (Nat.even (m / 3)), k; reflexivity.
Qed.

Lemma play_strings ids :
  forall g j,
    turn_state g j -> (j < 3)%nat ->
    exists g',
      play (map Str ids) g = Some g' /\
      turn_state g' ((j + length ids) mod 3) /\
      Game.currentPlayer g' = whoseTurn (Game.currentPlayer g) j (length ids).
Proof.
  induction ids as [|s ids IH]; intros g j Ht Hj.
  - exists g. cbn [map play length]. rewrite Nat.add_0_r.
    rewrite Nat.mod_small by exact Hj. split; [reflexivity|]. split; [exact Ht|].
    unfold whoseTurn. rewrite Nat.add_0_r, Nat.div_small by exact Hj. reflexivity.
  - destruct (turn_state_step s g j Ht) as (g1 & Hs & Ht1 & Hp1).
    assert (Hj1 : ((if (j =? 2)%nat then 0 else S j) < 3)%nat).
    { destruct j as [|[|[|j]]]; cbn; lia. }
    destruct (IH g1 _ Ht1 Hj1) as (g' & Hplay & Ht' & Hp').
    destruct (whoseTurn_step (Game.currentPlayer g) j (length ids) Hj) as [Ew Em].
    exists g'. cbn [map play length]. rewrite Hs. cbn [mbind option_bind].
    split; [exact Hplay|]. rewrite <- Em, <- Ew, <- Hp1. split; assumption.
Qed.

Lemma turn_state_new : turn_state Game.new 0.
Proof.
  split; [exact game_ok_new|].
  split; eexists; split; reflexivity.
Qed.

(** X13.  When all identifiers are strings, the darts go to the Players in
    turns of three: after any sequence of such darts on a fresh Game the
    current Player is Player one if the number of complete turns (darts
    divided by three) is even and Player two if it is odd, and the current
    Player's current Throw is complete exactly when the number of darts is
    a multiple of three. *)
Theorem turns_of_three (ids : list string) :
  exists g th,
    play (map Str ids) Game.new = Some g /\
    Game.currentPlayer g
    = (if Nat.even (length ids / 3) then Game.one else Game.two) /\
    Player.currentThrow (Game.current g) = Some th /\
    Throw.isThrowComplete th = (length ids mod 3 =? 0)%nat.
Proof.
  destruct (play_strings ids Game.new 0 turn_state_new ltac:(lia))
    as (g & Hplay & (_ & _ & Hcur) & Hp).
  cbn [Nat.add] in Hcur.
  assert (Hm : (length ids mod 3 < 3)%nat) by (apply Nat.mod_upper_bound; lia).
  destruct (length ids mod 3)%nat as [|j] eqn:Em.
  - destruct Hcur as (th & Hc & Hcomp).
    exists g, th. repeat apply conj; assumption.
  - destruct Hcur as ((th & Hc & Hf) & Hj).
    exists g, th. repeat apply conj; try assumption.
    rewrite (filledUpTo_complete th (S j) Hf).
    destruct j as [|[|j]]; [reflexivity|reflexivity|lia].
Qed.

(** ** Darts without an identifier, and scores that are not numbers *)

Lemma num_sub_zero s : num_sub s (Int 0) = s.
Proof. destruct s as [|z]; cbn; [reflexivity|]. f_equal. lia. Qed.

Lemma target_isThrowComplete n x : Throw.isThrowComplete (target n x) = false.
Proof.
  unfold target. destruct (Throw.isThrowComplete x) eqn:E; [reflexivity|exact E].
Qed.

Lemma addDart_Undefined_incomplete score th :
  Throw.isThrowComplete th = false ->
  Throw.isThrowComplete (snd (Throw.addDart Undefined score th)) = false.
Proof.
  unfold Throw.isThrowComplete. rewrite dart_addDart.
  destruct (decide _); [reflexivity|tauto].
Qed.

(** X14.  A dart whose identifier is absent ([undefined] or [null]) costs
    nothing: a successful [Game.addDart] with it leaves the currentScore of
    both Players as it was; and with [undefined] it also leaves the turn
    with the same Player. *)
Theorem absent_dart_costs_nothing (g g' : Game.t) (i : ident) :
  loosely_undefined i = true ->
  Game.addDart i g = Some g' ->
  (forall k, Player.currentScore (Game.player g' k)
             = Player.currentScore (Game.player g k)) /\
  (i = Undefined -> Game.currentPlayer g' = Game.currentPlayer g).
Proof.
  intros Hi Hs.
  destruct (Game_addDart_players i g g' Hs)
    as (id & score & l & x & Hc & Hp & Ho & Hturn).
  assert (Hv : Throw.getDartValueFromID i = Int 0).
  { destruct i; [reflexivity|reflexivity|discriminate Hi]. }
  split.
  - intros k. destruct (decide (k = Game.currentPlayer g)) as [->|Hk].
    + rewrite Hp. fold (Game.current g). rewrite Hc. cbn [Player.currentScore].
      rewrite Hv. apply num_sub_zero.
    + apply other_of_not_current in Hk. subst k. rewrite Ho. reflexivity.
  - intros ->. rewrite Hturn.
    rewrite addDart_Undefined_incomplete by apply target_isThrowComplete.
    reflexivity.
Qed.

Lemma absent_dart_costs_nothing_witness :
  loosely_undefined Null = true /\
  exists g',
    Game.addDart Null Game.new = Some g' /\
    Player.currentScore (Game.player g' Game.one) = Int 501.
Proof.
  split; [reflexivity|].
  exists (default Game.new (Game.addDart Null Game.new)).
  assert (Hs : Game.addDart Null Game.new
               = Some (default Game.new (Game.addDart Null Game.new)))
    by reflexivity.
  split; [exact Hs|].
  exact (proj1 (absent_dart_costs_nothing Game.new _ Null eq_refl Hs) Game.one).
Defined.

(** X15.  A score that is not a number never recovers: if a Player's
    currentScore is NaN, or the Player is current and the dart's value is
    NaN, then after a successful [Game.addDart] that Player's currentScore
    is NaN. *)
Theorem NaN_score_is_kept (g g' : Game.t) (i : ident) (k : Game.key) :
  Game.addDart i g = Some g' ->
  Player.currentScore (Game.player g k) = NaN
  \/ (k = Game.currentPlayer g /\ Throw.getDartValueFromID i = NaN) ->
  Player.currentScore (Game.player g' k) = NaN.
Proof.
  intros Hs Hcase.
  destruct (Game_addDart_players i g g' Hs)
    as (id & score & l & x & Hc & Hp & Ho & _).
  destruct (decide (k = Game.currentPlayer g)) as [->|Hk].
  - rewrite Hp. cbn [Player.currentScore].
    fold (Game.current g) in Hcase. rewrite Hc in Hcase.
    cbn [Player.currentScore] in Hcase.
    destruct Hcase as [->|[_ ->]]; [reflexivity|].
    destruct score; reflexivity.
  - destruct Hcase as [E|[E _]]; [|contradiction].
    apply other_of_not_current in Hk. subst k. rewrite Ho. exact E.
Qed.

Lemma NaN_score_is_kept_witness :
  exists g',
    Game.addDart (Str "sx") Game.new = Some g' /\
    Throw.getDartValueFromID (Str "sx") = NaN /\
    Player.currentScore (Game.player g' Game.one) = NaN.
Proof.
  exists (default Game.new (Game.addDart (Str "sx") Game.new)).
  assert (Hs : Game.addDart (Str "sx") Game.new
               = Some (default Game.new (Game.addDart (Str "sx") Game.new)))
    by reflexivity.
  split; [exact Hs|]. split; [reflexivity|].
  apply (NaN_score_is_kept Game.new _ (Str "sx") Game.one Hs).
  right. split; reflexivity.
Defined.

(** ** The click handler *)

Lemma clicks_keep_invariant ids :
  forall sc,
    reachable (Controller.game sc) ->
    Controller.listening sc = negb (gameOver (Controller.game sc)) ->
    exists sc',
      Controller.clicks ids sc = Some sc' /\
      reachable (Controller.game sc') /\
      Controller.listening sc' = negb (gameOver (Controller.game sc')).
Proof.
  induction ids as [|i ids IH]; intros sc Hr Hl.
  - exists sc. repeat apply conj; [reflexivity|exact Hr|exact Hl].
  - cbn [Controller.clicks]. unfold Controller.click.
    destruct (Controller.listening sc) eqn:L.
    + destruct (Game_addDart_ok i _ (reachable_ok _ Hr)) as (g' & Hs & _).
      unfold Controller.boardClickHandler. rewrite Hs. cbn [mbind option_bind].
      apply IH; cbn [Controller.game Controller.listening].
      * exact (reachable_addDart _ i g' Hr Hs).
      * fold (gameOver g'). rewrite L. destruct (gameOver g'); reflexivity.
    + cbn [mbind option_bind]. apply IH; [exact Hr|]. rewrite L. exact Hl.
Qed.

Lemma clicks_when_detached ids sc :
  Controller.listening sc = false -> Controller.clicks ids sc = Some sc.
Proof.
  intros L. induction ids as [|i ids IH]; [reflexivity|].
  cbn [Controller.clicks]. unfold Controller.click. rewrite L. exact IH.
Qed.

Lemma clicks_app pre post sc :
  Controller.clicks (pre ++ post) sc
  = sc' ← Controller.clicks pre sc; Controller.clicks post sc'.
Proof.
  revert sc. induction pre as [|i pre IH]; intros sc; [reflexivity|].
  cbn [app Controller.clicks]. destruct (Controller.click i sc) as [sc1|]; [|reflexivity].
  cbn [mbind option_bind]. apply IH.
Qed.

(** X16.  Whatever the sections clicked, the click handler never raises, the
    Game it has built is one reached by [Game.addDart] calls, and the
    handler is still attached to the board exactly when neither Player's
    currentScore is 0. *)
Theorem clicks_listening_iff_no_winner (ids : list ident) :
  exists sc,
    Controller.clicks ids Controller.init = Some sc /\
    reachable (Controller.game sc) /\
    Controller.listening sc
    = negb (Controller.isZero
              (Player.currentScore (Game.player (Controller.game sc) Game.one))
            || Controller.isZero
                 (Player.currentScore (Game.player (Controller.game sc) Game.two))).
Proof.
  apply (clicks_keep_invariant ids Controller.init); [exact reachable_new|reflexivity].
Qed.

(** X17.  The end of the game is final: once a sequence of clicks has brought
    a Player's currentScore to 0, no further click changes anything -- the
    Game and both Players stay as they are. *)
Theorem clicks_after_win_change_nothing
    (ids more : list ident) (sc : Controller.t) (k : Game.key) :
  Controller.clicks ids Controller.init = Some sc ->
  Player.currentScore (Game.player (Controller.game sc) k) = Int 0 ->
  Controller.clicks (ids ++ more) Controller.init = Some sc.
Proof.
  intros Hc Hz.
  destruct (clicks_keep_invariant ids Controller.init reachable_new eq_refl)
    as (sc' & Hc' & _ & Hl).
  rewrite Hc in Hc'. apply (inj Some) in Hc'. subst sc'.
  rewrite clicks_app, Hc. cbn [mbind option_bind].
  apply clicks_when_detached. rewrite Hl. unfold gameOver.
  destruct k; cbn [Game.player] in Hz |- *; rewrite Hz; cbn;
    [reflexivity|apply orb_true_r || (rewrite orb_true_r; reflexivity)].
Qed.

Lemma clicks_after_win_change_nothing_witness :
  Controller.clicks [Str "s501"] Controller.init = Some afterS501 /\
  Player.currentScore (Game.player (Controller.game afterS501) Game.one) = Int 0 /\
  Controller.clicks ([Str "s501"] ++ [Str "t20"; Str "Bull"]) Controller.init
  = Some afterS501.
Proof.
  assert (Hc : Controller.clicks [Str "s501"] Controller.init = Some afterS501)
    by reflexivity.
  assert (Hz : Player.currentScore (Game.player (Controller.game afterS501) Game.one)
               = Int 0) by reflexivity.
  split; [exact Hc|]. split; [exact Hz|].
  exact (clicks_after_win_change_nothing [Str "s501"] [Str "t20"; Str "Bull"]
           afterS501 Game.one Hc Hz).
Defined.

(** ** The third slot: [null] against [undefined] *)

(** X18.  On a Throw with two darts recorded, a third dart with identifier
    [null] makes the Throw complete, while one with identifier [undefined]
    leaves it incomplete; in both cases slots one and two keep their darts
    and slot three is still the one the next [addDart] would write. *)
Theorem third_dart_null_or_undefined (th : Throw.t) (score : number) :
  filledUpTo th 2 ->
  Throw.isThrowComplete (snd (Throw.addDart Null score th)) = true /\
  Throw.isThrowComplete (snd (Throw.addDart Undefined score th)) = false /\
  (forall i, loosely_undefined i = true ->
     Throw.dart (snd (Throw.addDart i score th)) "one" = Throw.dart th "one" /\
     Throw.dart (snd (Throw.addDart i score th)) "two" = Throw.dart th "two" /\
     Throw.nextSlot (snd (Throw.addDart i score th)) = "three").
Proof.
  intros (H1 & H2 & H3).
  assert (N : Throw.nextSlot th = "three").
  { unfold Throw.nextSlot. destruct H1 as [a ->], H2 as [b ->]. rewrite H3.
    reflexivity. }
  split; [|split].
  - unfold Throw.isThrowComplete. rewrite dart_addDart, N. reflexivity.
  - unfold Throw.isThrowComplete. rewrite dart_addDart, N. reflexivity.
  - intros i Hi. rewrite !dart_addDart, N.
    rewrite (nextSlot_after_addDart i score th (or_introl Hi)), N.
    repeat split.
Qed.

Lemma third_dart_null_or_undefined_witness :
  filledUpTo twoDartThrow 2 /\
  Throw.isThrowComplete (snd (Throw.addDart Null (Int 381) twoDartThrow)) = true /\
  Throw.isThrowComplete (snd (Throw.addDart Undefined (Int 381) twoDartThrow)) = false.
Proof.
  assert (F : filledUpTo twoDartThrow 2).
  { split; [exists "t20"; reflexivity|]. split; [exists "t20"; reflexivity|].
    reflexivity. }
  split; [exact F|].
  destruct (third_dart_null_or_undefined twoDartThrow (Int 381) F) as (Hn & Hu & _).
  split; [exact Hn|exact Hu].
Defined.
